(** * Session routing of the JSON-response Streamable HTTP example server

    A shallow embedding of [dist/cjs/examples/server/jsonResponseStreamableHttp.js]:
    the request classifier [isInitializeRequest], the session registry
    [transports] and the two route handlers registered on [/mcp].

    The transport class, the protocol engine ([server]) and the web framework
    are outside the file; what they do during one request is supplied by an
    environment record, and every theorem quantifies over it. *)

From Stdlib Require Import PrimFloat.
From stdpp Require Import gmap strings list fin_maps.

Set Warnings "-register-all".

(** ** JavaScript values *)

(** The values a parsed request body can take, plus [undefined] (a request
    whose body was not parsed). Numbers are IEEE 754 doubles; objects are
    plain data objects, keyed by property name. *)
Inductive JsValue : Type :=
| JUndefined
| JNull
| JBool (b : bool)
| JNum (x : float)
| JStr (s : string)
| JArr (elems : list JsValue)
| JObj (props : gmap string JsValue).

(** What a JavaScript evaluation can raise. [TypeError] is raised by the
    runtime itself; [Failure] stands for any error thrown by the code outside
    this file (the transport, the protocol engine). *)
Inductive Error : Type :=
| TypeError
| Failure.

(** The outcome of evaluating an expression: a value, or a raised error. *)
Inductive Completion (A : Type) : Type :=
| Normal (a : A)
| Throw (e : Error).
Arguments Normal {A} a.
Arguments Throw {A} e.

#[global] Instance Completion_ret : MRet Completion := fun _ a => Normal a.
#[global] Instance Completion_bind : MBind Completion := fun _ _ f c =>
  match c with
  | Normal a => f a
  | Throw e => Throw e
  end.

(** [typeof v] *)
Definition typeof (v : JsValue) : string :=
  match v with
  | JUndefined => "undefined"
  | JNull => "object"
  | JBool _ => "boolean"
  | JNum _ => "number"
  | JStr _ => "string"
  | JArr _ => "object"
  | JObj _ => "object"
  end.

(** [Array.isArray(v)] *)
Definition Array_isArray (v : JsValue) : bool :=
  match v with
  | JArr _ => true
  | _ => false
  end.

(** The elements of an array (no other value has any). *)
Definition elements (v : JsValue) : list JsValue :=
  match v with
  | JArr elems => elems
  | _ => []
  end.

(** [v !== null] *)
Definition not_null (v : JsValue) : bool :=
  match v with
  | JNull => false
  | _ => true
  end.

(** [v === s] for a string literal [s]: strict equality holds only for a
    string primitive with the same characters. *)
Definition strict_equals_string (v : JsValue) (s : string) : bool :=
  match v with
  | JStr t => String.eqb t s
  | _ => false
  end.

(** ['method' in v]. The operator raises a [TypeError] when its right operand
    is not an object. No built-in prototype has a member called [method], and
    [method] is no array index, so an array never has it and a plain object has
    it exactly when it is one of its own properties. *)
Definition method_in (v : JsValue) : Completion bool :=
  match v with
  | JObj props => Normal (bool_decide (is_Some (props !! "method")))
  | JArr _ => Normal false
  | _ => Throw TypeError
  end.

(** [v.method]. Reading a property of [null] or [undefined] raises a
    [TypeError]; on every other value a property that is not there reads as
    [undefined]. *)
Definition method_of (v : JsValue) : Completion JsValue :=
  match v with
  | JUndefined | JNull => Throw TypeError
  | JObj props => Normal (default JUndefined (props !! "method"))
  | _ => Normal JUndefined
  end.

(** [a && b] on boolean operands: [b] is evaluated only when [a] is true. *)
Definition js_and (a b : Completion bool) : Completion bool :=
  a ≫= λ x : bool, if x then b else Normal false.
Infix "&&&" := js_and (at level 40, left associativity).

(** [arr.some(cb)]: the callback runs on the elements in order, up to the
    first one on which it returns true; an error it raises is passed on. *)
Fixpoint Array_some (cb : JsValue → Completion bool) (arr : list JsValue)
  : Completion bool :=
  match arr with
  | [] => Normal false
  | msg :: rest =>
      cb msg ≫= λ b : bool, if b then Normal true else Array_some cb rest
  end.

(** ** Request classifier *)

(** The test applied to a single message (lines 129 and 131):
    [typeof msg === 'object' && msg !== null && 'method' in msg &&
     msg.method === 'initialize']. *)
Definition is_initialize_message (msg : JsValue) : Completion bool :=
  Normal (String.eqb (typeof msg) "object")
  &&& Normal (not_null msg)
  &&& method_in msg
  &&& (m ← method_of msg; Normal (strict_equals_string m "initialize")).

(** [function isInitializeRequest(body)] (lines 127-132). *)
Definition isInitializeRequest (body : JsValue) : Completion bool :=
  if Array_isArray body
  then Array_some is_initialize_message (elements body)
  else is_initialize_message body.

(** ** Session registry *)

(** A transport is an object of the class [StreamableHTTPServerTransport];
    the model keeps its reference: the number of transports constructed
    before it. *)
Definition Transport : Type := nat.

(** The registry is [const transports = {}] (line 64), an ordinary object
    literal. The finite map holds its own properties; its prototype is
    [Object.prototype], whose members a property read also finds. *)
Definition Object_prototype_keys : list string :=
  ["constructor"; "hasOwnProperty"; "isPrototypeOf"; "propertyIsEnumerable";
   "toLocaleString"; "toString"; "valueOf"; "__proto__";
   "__defineGetter__"; "__defineSetter__";
   "__lookupGetter__"; "__lookupSetter__"].

Definition Object_prototype_has (k : string) : bool :=
  existsb (String.eqb k) Object_prototype_keys.

(** What a property read on the registry yields. *)
Inductive Slot : Type :=
| SlotTransport (t : Transport)  (* an own property: a stored transport *)
| SlotBuiltin (k : string)       (* the member [k] of [Object.prototype] *)
| SlotUndefined.                 (* no such property *)

(** [transports[k]] (lines 71 and 73). *)
Definition registry_get (registry : gmap string Transport) (k : string) : Slot :=
  match registry !! k with
  | Some t => SlotTransport t
  | None => if Object_prototype_has k then SlotBuiltin k else SlotUndefined
  end.

(** Truthiness of a slot: a transport, a built-in function and
    [Object.prototype] itself are objects, hence truthy. *)
Definition slot_truthy (s : Slot) : bool :=
  match s with
  | SlotTransport _ | SlotBuiltin _ => true
  | SlotUndefined => false
  end.

(** [transports[k] = t] (line 87). The assignment creates or overwrites the
    own property [k]. The one exception is the key [__proto__], which
    reaches the accessor inherited from [Object.prototype] and adds no own
    property (it re-parents the object instead; that effect is outside the
    model, and the ids stored here come from [randomUUID], which never
    yields that key). *)
Definition registry_put (k : string) (t : Transport)
    (registry : gmap string Transport) : gmap string Transport :=
  if String.eqb k "__proto__" then registry else <[k := t]> registry.

(** Modelled from the spec: the registry operation [remove(id)], which the
    source never performs (no entry is ever deleted); on the registry object
    it is [delete transports[id]], which removes the own property. *)
Definition registry_remove (k : string)
    (registry : gmap string Transport) : gmap string Transport :=
  delete k registry.

(** ** Requests, replies and what a handler does *)

Record Request : Type := {
  headers : gmap string string;   (* [req.headers], names in lower case *)
  body : JsValue                  (* [req.body], as the JSON body parser left it *)
}.

Inductive Payload : Type :=
| Json (v : JsValue)
| Text (s : string).

Record Reply : Type := {
  status : nat;
  fields : list (string * string);  (* header fields the handler sets itself *)
  payload : Payload
}.

(** The actions of a handler that can be observed from outside it. *)
Inductive Event : Type :=
| ConsoleLog (text : string) (arg : JsValue)
| ConsoleError (text : string) (e : Error)
| Construct (t : Transport)                  (* [new StreamableHTTPServerTransport] *)
| Connect (t : Transport)                    (* [server.connect(t)] is called *)
| Connected (t : Transport)                  (* ... and its promise has resolved *)
| HandleRequest (t : Transport) (b : JsValue) (* [t.handleRequest(req, res, b)] is called *)
| TransportWrites (t : Transport)            (* the transport has started the response *)
| Respond (r : Reply).                       (* the handler itself replies *)

(** The state a handler runs in: the registry, the number of transports
    constructed so far, and [res.headersSent] of the response at hand. *)
Record State : Type := {
  transports : gmap string Transport;
  constructed : nat;
  headersSent : bool
}.

(** One run of a piece of handler code: how it completed, the state it left
    and the events it produced, oldest first. *)
Record Run (A : Type) : Type := {
  completion : Completion A;
  final : State;
  trace : list Event
}.
Arguments completion {A} _.
Arguments final {A} _.
Arguments trace {A} _.

Definition M (A : Type) : Type := State → Run A.

#[global] Instance M_ret : MRet M := fun _ a st =>
  {| completion := Normal a; final := st; trace := [] |}.

#[global] Instance M_bind : MBind M := fun _ _ f m st =>
  let r := m st in
  match completion r with
  | Normal a =>
      let r' := f a (final r) in
      {| completion := completion r'; final := final r';
         trace := trace r ++ trace r' |}
  | Throw e => {| completion := Throw e; final := final r; trace := trace r |}
  end.

Definition throw {A : Type} (e : Error) : M A := fun st =>
  {| completion := Throw e; final := st; trace := [] |}.

Definition emit (ev : Event) : M unit := fun st =>
  {| completion := Normal (); final := st; trace := [ev] |}.

Definition gets {A : Type} (f : State → A) : M A := fun st =>
  {| completion := Normal (f st); final := st; trace := [] |}.

Definition modify (f : State → State) : M unit := fun st =>
  {| completion := Normal (); final := f st; trace := [] |}.

(** The value or the error of an expression without side effects. *)
Definition eval {A : Type} (c : Completion A) : M A :=
  match c with
  | Normal a => mret a
  | Throw e => throw e
  end.

(** [try { block } catch (error) { handler }] *)
Definition try_catch {A : Type} (block : M A) (handler : Error → M A) : M A :=
  fun st =>
    let r := block st in
    match completion r with
    | Normal _ => r
    | Throw e =>
        let r' := handler e (final r) in
        {| completion := completion r'; final := final r';
           trace := trace r ++ trace r' |}
    end.

(** ** The transport and the protocol engine *)

(** What the transport class and the protocol engine do during one request.
    A handler constructs at most one transport, connects at most one and
    calls [handleRequest] at most once, so one record covers a request. *)
Record Env : Type := {
  construct_throws : bool;        (* the constructor raises *)
  connect_rejects : bool;         (* the promise of [server.connect] rejects *)
  handle_starts_response : bool;  (* [handleRequest] sends the response head *)
  handle_rejects : bool;          (* the promise of [handleRequest] rejects *)
  sessionId_after : option string (* [transport.sessionId] once it has settled:
                                     [None] is [undefined] *)
}.

(** [req.headers['mcp-session-id']] (line 69): the header value, [None]
    ([undefined]) when the request carries no such header. *)
Definition session_header (req : Request) : option string :=
  headers req !! "mcp-session-id".

(** Truthiness of a value that is a string or [undefined]. *)
Definition truthy (s : option string) : bool :=
  match s with
  | Some t => negb (String.eqb t "")
  | None => false
  end.

(** The property key a string or [undefined] names. *)
Definition property_key (s : option string) : string :=
  default "undefined" s.

Definition console_log (text : string) (arg : JsValue) : M unit :=
  emit (ConsoleLog text arg).

Definition console_error (text : string) (e : Error) : M unit :=
  emit (ConsoleError text e).

(** [new StreamableHTTPServerTransport({...})] (lines 77-80) *)
Definition new_StreamableHTTPServerTransport (env : Env) : M Transport :=
  t ← gets constructed;
  modify (λ st, {| transports := transports st; constructed := S t;
                   headersSent := headersSent st |});;
  emit (Construct t);;
  if construct_throws env then throw Failure else mret t.

(** [await server.connect(transport)] (line 82) *)
Definition server_connect (env : Env) (t : Transport) : M unit :=
  emit (Connect t);;
  if connect_rejects env then throw Failure else emit (Connected t).

(** [await transport.handleRequest(req, res, req.body)] on a transport
    (lines 84 and 104) *)
Definition transport_handleRequest (env : Env) (t : Transport) (b : JsValue)
  : M unit :=
  emit (HandleRequest t b);;
  (if handle_starts_response env
   then emit (TransportWrites t);;
        modify (λ st, {| transports := transports st;
                         constructed := constructed st; headersSent := true |})
   else mret ());;
  if handle_rejects env then throw Failure else mret ().

(** The same call on whatever the registry read returned (line 104). A member
    of [Object.prototype] has no property [handleRequest], and calling
    [undefined] raises a [TypeError]. *)
Definition slot_handleRequest (env : Env) (s : Slot) (b : JsValue) : M unit :=
  match s with
  | SlotTransport t => transport_handleRequest env t b
  | SlotBuiltin _ | SlotUndefined => throw TypeError
  end.

(** [res.status(code).json(v)] and [res.status(code).set(..).send(text)]:
    the reply goes out and the head counts as sent. Replying on a response
    whose head is already out raises. *)
Definition res_reply (r : Reply) : M unit :=
  sent ← gets headersSent;
  if (sent : bool) then throw Failure
  else
    emit (Respond r);;
    modify (λ st, {| transports := transports st;
                     constructed := constructed st; headersSent := true |}).

(** [transports[k] = t] as a step of the handler *)
Definition store_transport (k : string) (t : Transport) : M unit :=
  modify (λ st, {| transports := registry_put k t (transports st);
                   constructed := constructed st;
                   headersSent := headersSent st |}).

(** ** The handlers *)

(** The error object of a reply (lines 93-100 and 109-116). *)
Definition jsonrpc_error (code : float) (message : string) : JsValue :=
  JObj {[ "jsonrpc" := JStr "2.0";
          "error" := JObj {[ "code" := JNum code; "message" := JStr message ]};
          "id" := JNull ]}.

Definition bad_request : Reply :=
  {| status := 400; fields := [];
     payload := Json (jsonrpc_error (-32000)%float
                        "Bad Request: No valid session ID provided") |}.

Definition internal_server_error : Reply :=
  {| status := 500; fields := [];
     payload := Json (jsonrpc_error (-32603)%float "Internal server error") |}.

Definition method_not_allowed : Reply :=
  {| status := 405; fields := [("Allow", "POST")];
     payload := Text "Method Not Allowed" |}.

(** The branch for a new initialization request (lines 76-89): construct,
    connect, forward, and store the transport under the session id it then
    exposes, if it exposes one. *)
Definition create_session (env : Env) (req : Request) : M unit :=
  transport ← new_StreamableHTTPServerTransport env;
  server_connect env transport;;
  transport_handleRequest env transport (body req);;
  if truthy (sessionId_after env)
  then store_transport (property_key (sessionId_after env)) transport
  else mret ().

(** The [try] block of the POST handler (lines 68-104). *)
Definition post_mcp_try (env : Env) (req : Request) : M unit :=
  let sessionId := session_header req in
  registry ← gets transports;
  if truthy sessionId
     && slot_truthy (registry_get registry (property_key sessionId))
  then
    (* Reuse existing transport *)
    let transport := registry_get registry (property_key sessionId) in
    slot_handleRequest env transport (body req)
  else
    initialize ← (if negb (truthy sessionId)
                  then eval (isInitializeRequest (body req))
                  else mret false);
    if (initialize : bool) then
      (* New initialization request *)
      create_session env req
    else
      (* Invalid request *)
      res_reply bad_request.

(** The [catch] block of the POST handler (lines 106-118). *)
Definition post_mcp_catch (error : Error) : M unit :=
  console_error "Error handling MCP request:" error;;
  sent ← gets headersSent;
  if negb sent then res_reply internal_server_error else mret ().

(** [app.post('/mcp', async (req, res) => {...})] (lines 65-119) *)
Definition post_mcp (env : Env) (req : Request) : M unit :=
  console_log "Received MCP request:" (body req);;
  try_catch (post_mcp_try env req) post_mcp_catch.

(** [app.get('/mcp', async (req, res) => {...})] (lines 121-125) *)
Definition get_mcp (req : Request) : M unit :=
  res_reply method_not_allowed.

(** The framework hands every request a response of its own, on which
    nothing has been sent. *)
Definition fresh_response (st : State) : State :=
  {| transports := transports st; constructed := constructed st;
     headersSent := false |}.

Definition serve {A : Type} (handler : M A) (st : State) : Run A :=
  handler (fresh_response st).

(** ** Vocabulary of the statements *)

(** A mapping whose key [method] holds exactly the string [initialize]. *)
Definition initialize_mapping (v : JsValue) : Prop :=
  ∃ props, v = JObj props ∧ props !! "method" = Some (JStr "initialize").

(** A body that is such a mapping, or a sequence with such a mapping among
    its elements. *)
Definition initialize_shape (B : JsValue) : Prop :=
  initialize_mapping B
  ∨ ∃ elems, B = JArr elems ∧ ∃ msg, msg ∈ elems ∧ initialize_mapping msg.

(** The two lines the POST handler writes to the console. *)
Definition the_log (req : Request) : Event :=
  ConsoleLog "Received MCP request:" (body req).

Definition the_error (e : Error) : Event :=
  ConsoleError "Error handling MCP request:" e.

(** The calls a handler makes on a transport, or to make one. *)
Definition is_transport_call (ev : Event) : bool :=
  match ev with
  | Construct _ | Connect _ | HandleRequest _ _ => true
  | _ => false
  end.

Definition transport_calls (tr : list Event) : list Event :=
  List.filter is_transport_call tr.

(** Every stored transport has been constructed: its reference is below the
    count of constructed transports. *)
Definition registry_wf (st : State) : Prop :=
  ∀ k t, transports st !! k = Some t → t < constructed st.

(** A trace in which [handleRequest] is only ever called on a transport whose
    [server.connect] has resolved earlier in the trace ([seen] holds the
    transports connected so far). *)
Fixpoint connected_before (seen : list Transport) (tr : list Event) : bool :=
  match tr with
  | [] => true
  | Connected t :: rest => connected_before (t :: seen) rest
  | HandleRequest t _ :: rest =>
      existsb (Nat.eqb t) seen && connected_before seen rest
  | _ :: rest => connected_before seen rest
  end.

(** *** Sample data *)

(** A session id of the shape [randomUUID] produces. *)
Definition sample_id : string := "0b9b2f2e-8c1d-4a53-9f0e-3a1c5d7e9f10".

(** The initialize message of the start-up banner (lines 143-155). *)
Definition initialize_call : JsValue :=
  JObj {[ "jsonrpc" := JStr "2.0";
          "method" := JStr "initialize";
          "params" := JObj {[ "capabilities" := JObj ∅;
                              "protocolVersion" := JStr "2025-03-26";
                              "clientInfo" := JObj {[ "name" := JStr "test";
                                                      "version" := JStr "1.0.0" ]} ]};
          "id" := JStr "1" ]}.

Definition tools_list_call : JsValue :=
  JObj {[ "jsonrpc" := JStr "2.0"; "method" := JStr "tools/list";
          "id" := JNum 2%float ]}.

(** A request with the given session header, or none. *)
Definition request (sessionId : option string) (b : JsValue) : Request :=
  {| headers := match sessionId with
                | Some s => {[ "mcp-session-id" := s ]}
                | None => ∅
                end;
     body := b |}.

(** A server that has just started, and one with a single session. *)
Definition no_sessions : State :=
  {| transports := ∅; constructed := 0; headersSent := false |}.

Definition one_session : State :=
  {| transports := {[ sample_id := 0 ]}; constructed := 1;
     headersSent := false |}.

(** A transport that answers, and assigns [sample_id] as its session id. *)
Definition env_answers : Env :=
  {| construct_throws := false; connect_rejects := false;
     handle_starts_response := true; handle_rejects := false;
     sessionId_after := Some sample_id |}.

(** A transport whose [handleRequest] fails after the response has begun. *)
Definition env_fails_late : Env :=
  {| construct_throws := false; connect_rejects := false;
     handle_starts_response := true; handle_rejects := true;
     sessionId_after := None |}.

(** ** The tool callbacks and the shutdown handler *)

(** Code that runs against a collaborator of its own keeps a state [S] and
    leaves events of type [E]: the outcome, the state and the events, oldest
    first. *)
Definition Act (E S A : Type) : Type := S → Completion A * S * list E.

#[global] Instance Act_ret {E S : Type} : MRet (Act E S) := fun _ a s =>
  (Normal a, s, []).

#[global] Instance Act_bind {E S : Type} : MBind (Act E S) := fun _ _ f m s =>
  match m s with
  | (Normal a, s', tr) =>
      match f a s' with
      | (c, s'', tr') => (c, s'', tr ++ tr')
      end
  | (Throw e, s', tr) => (Throw e, s', tr)
  end.

(** [throw e] *)
Definition raise {E S A : Type} (e : Error) : Act E S A := fun s =>
  (Throw e, s, []).

(** What a tool callback does that its caller can see. *)
Inductive ToolEvent : Type :=
| Notified (n : JsValue)   (* [sendNotification(n)] is called *)
| Slept (ms : nat).        (* a timer of [ms] milliseconds has run out *)

(** The text result of a tool: [{ content: [{ type: 'text', text }] }]. *)
Definition text_result (text : string) : JsValue :=
  JObj {[ "content" :=
            JArr [JObj {[ "type" := JStr "text"; "text" := JStr text ]}] ]}.

(** The callback of the tool [greet] (lines 23-32); [name] is the string
    the tool's schema admits. *)
Definition greet (name : string) : JsValue :=
  text_result ("Hello, " +:+ name +:+ "!").

(** The logging notification the tool [multi-greet] sends (lines 38-41). *)
Definition message_notification (level data : string) : JsValue :=
  JObj {[ "method" := JStr "notifications/message";
          "params" := JObj {[ "level" := JStr level; "data" := JStr data ]} ]}.

(** [await sendNotification(n)]: the state counts the calls made so far, and
    [rejects i] says whether the promise of call number [i] rejects. *)
Definition sendNotification (rejects : nat → bool) (n : JsValue)
  : Act ToolEvent nat unit :=
  fun calls =>
    (if rejects calls then Throw Failure else Normal (), S calls, [Notified n]).

(** [await sleep(ms)] (line 37): the timer promise always resolves. *)
Definition sleep (ms : nat) : Act ToolEvent nat unit :=
  fun calls => (Normal (), calls, [Slept ms]).

(** The callback of the tool [multi-greet] (lines 36-60). *)
Definition multi_greet (rejects : nat → bool) (name : string)
  : Act ToolEvent nat JsValue :=
  sendNotification rejects
    (message_notification "debug" ("Starting multi-greet for " +:+ name));;
  sleep 1000;;
  sendNotification rejects
    (message_notification "info" ("Sending first greeting to " +:+ name));;
  sleep 1000;;
  sendNotification rejects
    (message_notification "info" ("Sending second greeting to " +:+ name));;
  mret (text_result ("Good morning, " +:+ name +:+ "!")).

(** What the shutdown handler does to the process. *)
Inductive ProcessEvent : Type :=
| Printed (text : string)  (* [console.log(text)] *)
| CloseServer              (* [server.close()] is called *)
| ServerClosed             (* ... and its promise has resolved *)
| Exit (code : nat).       (* [process.exit(code)] *)

Definition proc (ev : ProcessEvent) : Act ProcessEvent unit unit :=
  fun s => (Normal (), s, [ev]).

(** [await server.close()] (line 163) *)
Definition server_close (close_rejects : bool) : Act ProcessEvent unit unit :=
  proc CloseServer;;
  if close_rejects then raise Failure else proc ServerClosed.

(** [process.on('SIGINT', async () => {...})] (lines 161-165);
    [close_rejects] says whether the promise of [server.close()] rejects.
    Nothing runs after [process.exit]. *)
Definition on_SIGINT (close_rejects : bool) : Act ProcessEvent unit unit :=
  proc (Printed "Shutting down server...");;
  server_close close_rejects;;
  proc (Exit 0).

(** ** Requests in sequence *)

(** A request the server receives on [/mcp], with what the transport and the
    protocol engine do while it is served. *)
Inductive Call : Type :=
| PostCall (env : Env) (req : Request)
| GetCall (req : Request).

(** The state one request leaves behind, and the state after a list of
    requests served one after another (a handler runs to its end before the
    next one starts). *)
Definition step (st : State) (c : Call) : State :=
  match c with
  | PostCall env req => final (serve (post_mcp env req) st)
  | GetCall req => final (serve (get_mcp req) st)
  end.

Definition run_calls (calls : list Call) (st : State) : State :=
  fold_left step calls st.

(** ** More vocabulary *)

(** The request takes the CREATE branch: no usable session header, and an
    initialize body. *)
Definition creates (req : Request) : bool :=
  negb (truthy (session_header req))
  && match isInitializeRequest (body req) with
     | Normal b => b
     | Throw _ => false
     end.

(** The constructor, [server.connect] and [handleRequest] all return, and
    the transport then exposes a session id. *)
Definition creation_succeeds (env : Env) : bool :=
  negb (construct_throws env) && negb (connect_rejects env)
  && negb (handle_rejects env) && truthy (sessionId_after env).

Definition is_respond (ev : Event) : bool :=
  match ev with
  | Respond _ => true
  | _ => false
  end.

Definition is_construct (ev : Event) : bool :=
  match ev with
  | Construct _ => true
  | _ => false
  end.

Definition is_handleRequest (ev : Event) : bool :=
  match ev with
  | HandleRequest _ _ => true
  | _ => false
  end.

Definition is_transport_write (ev : Event) : bool :=
  match ev with
  | TransportWrites _ => true
  | _ => false
  end.

(** The replies the handler itself sends in a trace. *)
Definition replies (tr : list Event) : list Event :=
  List.filter is_respond tr.

(** No transport is stored under two session ids. *)
Definition registry_injective (st : State) : Prop :=
  ∀ k1 k2 t,
    transports st !! k1 = Some t → transports st !! k2 = Some t → k1 = k2.

(** The first of the three notifications of [multi-greet] that fails. *)
Definition first_rejection (rejects : nat → bool) : option nat :=
  if rejects 0 then Some 0
  else if rejects 1 then Some 1
  else if rejects 2 then Some 2
  else None.

(** The notifications sent and the time slept in a trace of a tool. *)
Definition notifications (tr : list ToolEvent) : list JsValue :=
  omap (λ ev, match ev with Notified n => Some n | Slept _ => None end) tr.

Definition time_slept (tr : list ToolEvent) : nat :=
  foldr (λ ev acc, match ev with Slept ms => ms + acc | Notified _ => acc end)
        0 tr.

(** The text of a tool result, if it has the shape of [text_result]. *)
Definition result_text (r : JsValue) : option string :=
  match r with
  | JObj props =>
      match props !! "content" with
      | Some (JArr [JObj item]) =>
          match item !! "text" with
          | Some (JStr text) => Some text
          | _ => None
          end
      | _ => None
      end
  | _ => None
  end.

(** The name a greeting of [greet] was made for: the text without its
    first seven characters and its last one. *)
Definition greeted_name (r : JsValue) : option string :=
  match result_text r with
  | Some text =>
      if String.prefix "Hello, " text
      then Some (String.substring 7 (String.length text - 8) text)
      else None
  | None => None
  end.

(** ** Running handler code *)

Ltac run :=
  cbv [create_session slot_handleRequest transport_handleRequest server_connect
       new_StreamableHTTPServerTransport store_transport res_reply get_mcp
       console_log console_error emit gets modify throw eval
       mbind M_bind mret M_ret completion final trace app fresh_response
       transports constructed headersSent construct_throws connect_rejects
       handle_starts_response handle_rejects sessionId_after negb].

Lemma run_gets_bind {A B : Type} (f : State → A) (k : A → M B) (st : State) :
  (gets f ≫= k) st = k (f st) st.
Proof. unfold mbind, M_bind, gets; cbn. by destruct (k (f st) st). Qed.

Lemma run_ret_bind {A B : Type} (a : A) (k : A → M B) (st : State) :
  (mret a ≫= k) st = k a st.
Proof. unfold mbind, M_bind, mret, M_ret; cbn. by destruct (k a st). Qed.

(** ** The classifier *)

Lemma is_initialize_message_decides (msg : JsValue) :
  ∃ b : bool, is_initialize_message msg = Normal b
              ∧ (b = true ↔ initialize_mapping msg).
Proof.
  unfold is_initialize_message, initialize_mapping.
  destruct msg as [| |b|x|s|elems|props]; cbn;
    try (exists false; split; [reflexivity|];
         split; [discriminate | intros (? & ? & ?); discriminate]).
  destruct (props !! "method") as [m|] eqn:Hm; cbn.
  - exists (strict_equals_string m "initialize"). split; [reflexivity|].
    split.
    + intros Heq. exists props. split; [reflexivity|].
      destruct m; cbn in Heq; try discriminate.
      apply String.eqb_eq in Heq. by subst.
    + intros (props' & [= <-] & Hp). rewrite Hm in Hp.
      injection Hp as ->. reflexivity.
  - exists false. split; [reflexivity|].
    split; [discriminate|]. intros (props' & [= <-] & Hp). congruence.
Qed.

Lemma Array_some_decides (cb : JsValue → Completion bool)
    (P : JsValue → Prop) (arr : list JsValue) :
  (∀ msg, ∃ b : bool, cb msg = Normal b ∧ (b = true ↔ P msg)) →
  ∃ b : bool, Array_some cb arr = Normal b
              ∧ (b = true ↔ ∃ msg, msg ∈ arr ∧ P msg).
Proof.
  intros Hcb. induction arr as [|msg rest IH]; cbn.
  - exists false. split; [reflexivity|]. split; [discriminate|].
    intros (? & Hin & _). by apply not_elem_of_nil in Hin.
  - destruct (Hcb msg) as (b & -> & Hb). cbn. destruct b.
    + exists true. split; [reflexivity|]. split; [|reflexivity].
      intros _. exists msg. split; [left | by apply Hb].
    + destruct IH as (b' & -> & Hb'). exists b'. split; [reflexivity|].
      rewrite Hb'. split.
      * intros (m & Hin & HP). exists m. split; [by right | done].
      * intros (m & Hin & HP). apply elem_of_cons in Hin as [->|Hin].
        -- apply Hb in HP. discriminate.
        -- by exists m.
Qed.

Lemma isInitializeRequest_decides (B : JsValue) :
  ∃ b : bool, isInitializeRequest B = Normal b
              ∧ (b = true ↔ initialize_shape B).
Proof.
  unfold initialize_shape.
  unfold isInitializeRequest.
  destruct B as [| |b|x|s|elems|props]; cbn [Array_isArray elements].
  6: {
    destruct (Array_some_decides is_initialize_message initialize_mapping
                elems is_initialize_message_decides) as (b & -> & Hb).
    exists b. split; [reflexivity|]. rewrite Hb. split.
    - intros Hex. right. by exists elems.
    - intros [(? & ? & ?)|(elems' & [= <-] & Hex)]; [discriminate | done].
  }
  all: match goal with |- context [is_initialize_message ?v] =>
         destruct (is_initialize_message_decides v) as (b' & -> & Hb')
       end;
       exists b'; (split; [reflexivity|]); rewrite Hb'; (split; [by left|]);
       (intros [?|(? & ? & ?)]; [done | discriminate]).
Qed.

(** C1. For every body [B], [isInitializeRequest B] returns true if and only
    if [B] is a mapping whose key [method] holds exactly ["initialize"], or
    [B] is a sequence with such a mapping among its elements; on every other
    shape it returns false. *)
Theorem isInitializeRequest_true_iff (B : JsValue) :
  (isInitializeRequest B = Normal true ↔ initialize_shape B)
  ∧ (¬ initialize_shape B → isInitializeRequest B = Normal false).
Proof.
  destruct (isInitializeRequest_decides B) as (b & HB & Hb). rewrite HB.
  split.
  - rewrite <- Hb. split; [by intros [= ->] | by intros ->].
  - intros Hn. destruct b; [|reflexivity]. destruct Hn. by apply Hb.
Qed.

(** C10. [isInitializeRequest] is total and raises nothing: on every input
    value (null, undefined, a scalar, a mapping, a sequence of arbitrary
    elements) it returns a boolean. *)
Theorem isInitializeRequest_total (v : JsValue) :
  ∃ b : bool, isInitializeRequest v = Normal b.
Proof.
  destruct (isInitializeRequest_decides v) as (b & Hv & _). by exists b.
Qed.

(** The guard matters: on [null] the bare operators raise. *)
Example unguarded_access_raises :
  method_in JNull = Throw TypeError ∧ method_of JUndefined = Throw TypeError
  ∧ isInitializeRequest (JArr [JNull; JNum 7%float; JStr "initialize"])
    = Normal false.
Proof. by repeat split. Qed.

(** ** The registry *)

Lemma truthy_Some (sid : string) : sid ≠ "" → truthy (Some sid) = true.
Proof. intros H. cbn. by destruct (String.eqb_spec sid ""). Qed.

Lemma truthy_true_inv (s : option string) :
  truthy s = true → ∃ sid, s = Some sid ∧ sid ≠ "".
Proof.
  destruct s as [sid|]; [|discriminate]. cbn. intros H. exists sid.
  split; [reflexivity|]. by destruct (String.eqb_spec sid "").
Qed.

Lemma not_builtin_not_proto (k : string) :
  Object_prototype_has k = false → String.eqb k "__proto__" = false.
Proof.
  intros H. destruct (String.eqb_spec k "__proto__") as [->|]; [|reflexivity].
  discriminate H.
Qed.

(** An id of 36 characters, as [randomUUID] returns them, names no member of
    [Object.prototype]. *)
Lemma generated_id_not_builtin (k : string) :
  String.length k = 36 → Object_prototype_has k = false.
Proof.
  intros Hlen. unfold Object_prototype_has, Object_prototype_keys.
  cbn [existsb].
  repeat match goal with
         | |- context [String.eqb k ?lit] =>
             destruct (String.eqb_spec k lit) as [->|_]; [discriminate Hlen|]
         end.
  reflexivity.
Qed.

Lemma registry_put_insert (k : string) (t : Transport)
    (registry : gmap string Transport) :
  k ≠ "__proto__" → registry_put k t registry = <[k := t]> registry.
Proof.
  intros Hk. unfold registry_put.
  by destruct (String.eqb_spec k "__proto__").
Qed.

(** C5, as the code has it. For every registry state and every
    [put(id, transport)] with an id other than [__proto__], the write takes
    effect whatever the registry held: afterwards [id] maps to the given
    transport and every other entry is as before; putting the instance
    already stored under [id] changes nothing. *)
Theorem registry_put_overwrites (registry : gmap string Transport)
    (id : string) (transport : Transport) :
  id ≠ "__proto__" →
  registry_put id transport registry !! id = Some transport
  ∧ (∀ k, k ≠ id → registry_put id transport registry !! k = registry !! k)
  ∧ (registry !! id = Some transport →
     registry_put id transport registry = registry).
Proof.
  intros Hid. rewrite registry_put_insert by done. repeat split.
  - apply lookup_insert_eq.
  - intros k Hk. by apply lookup_insert_ne.
  - apply insert_id.
Qed.

Lemma registry_put_overwrites_witness :
  registry_put sample_id 1 (transports one_session) !! sample_id = Some 1.
Proof.
  exact (proj1 (registry_put_overwrites (transports one_session) sample_id 1
                  ltac:(discriminate))).
Defined.

(** C5, as the spec words it, fails: a registry that maps [sample_id] to
    transport 0 maps it to transport 1 after [put(sample_id, 1)]; the write is
    not rejected and the entry is not preserved. The dispatcher gets there
    when a second transport reports an id already in use. *)
Lemma put_replaces_existing_entry :
  transports one_session !! sample_id = Some 0
  ∧ registry_put sample_id 1 (transports one_session) !! sample_id = Some 1
  ∧ transports (final (serve (post_mcp env_answers (request None initialize_call))
                         one_session)) !! sample_id = Some 1.
Proof. by vm_compute. Qed.

(** C9. For every session id [S] that names no member of [Object.prototype]
    (every generated id is such) and every transport [T]: looking [S] up after
    registering it with [T] yields [T] itself, and looking [S] up after
    removing it yields nothing. *)
Theorem registry_round_trip (registry : gmap string Transport)
    (S : string) (T : Transport) :
  Object_prototype_has S = false →
  registry_get (registry_put S T registry) S = SlotTransport T
  ∧ registry_get (registry_remove S registry) S = SlotUndefined.
Proof.
  intros HS. unfold registry_get, registry_put, registry_remove.
  rewrite (not_builtin_not_proto _ HS), lookup_insert_eq, lookup_delete_eq, HS.
  by split.
Qed.

Lemma registry_round_trip_witness :
  registry_get (registry_put sample_id 0 ∅) sample_id = SlotTransport 0
  ∧ registry_get (registry_remove sample_id (transports one_session)) sample_id
    = SlotUndefined.
Proof.
  split.
  - exact (proj1 (registry_round_trip ∅ sample_id 0 eq_refl)).
  - exact (proj2 (registry_round_trip (transports one_session) sample_id 0
                    eq_refl)).
Defined.

(** A name inherited from [Object.prototype] reads as present in a registry
    that never stored it. *)
Example inherited_member_reads_as_present :
  registry_get ∅ "constructor" = SlotBuiltin "constructor"
  ∧ registry_get ∅ sample_id = SlotUndefined.
Proof. by split. Qed.

(** ** The POST handler, branch by branch *)

Lemma post_mcp_try_reuse (env : Env) (req : Request) (st : State) :
  truthy (session_header req)
  && slot_truthy (registry_get (transports st)
                    (property_key (session_header req))) = true →
  post_mcp_try env req st
  = slot_handleRequest env
      (registry_get (transports st) (property_key (session_header req)))
      (body req) st.
Proof. intros H. unfold post_mcp_try. rewrite run_gets_bind. by rewrite H. Qed.

Lemma post_mcp_try_create (env : Env) (req : Request) (st : State) :
  truthy (session_header req) = false →
  isInitializeRequest (body req) = Normal true →
  post_mcp_try env req st = create_session env req st.
Proof.
  intros H1 H2. unfold post_mcp_try. rewrite run_gets_bind. rewrite H1, H2.
  cbn [andb negb eval]. by rewrite run_ret_bind.
Qed.

Lemma post_mcp_try_reject (env : Env) (req : Request) (st : State) :
  truthy (session_header req)
  && slot_truthy (registry_get (transports st)
                    (property_key (session_header req))) = false →
  (truthy (session_header req) = false →
   isInitializeRequest (body req) = Normal false) →
  post_mcp_try env req st = res_reply bad_request st.
Proof.
  intros H1 H2. unfold post_mcp_try. rewrite run_gets_bind. rewrite H1.
  destruct (truthy (session_header req)); cbn [negb].
  - by rewrite run_ret_bind.
  - rewrite H2 by done. cbn [eval]. by rewrite run_ret_bind.
Qed.

(** What the handler makes of its [try] block: a block that completes is
    left as it is; an error is logged and, if the head of the response is
    not out yet, answered with status 500. *)
Lemma post_mcp_settles (env : Env) (req : Request) (st : State) :
  serve (post_mcp env req) st =
  let attempt := post_mcp_try env req (fresh_response st) in
  match completion attempt with
  | Normal _ =>
      {| completion := Normal (); final := final attempt;
         trace := the_log req :: trace attempt |}
  | Throw e =>
      {| completion := Normal ();
         final := {| transports := transports (final attempt);
                     constructed := constructed (final attempt);
                     headersSent := true |};
         trace := the_log req :: trace attempt ++ the_error e ::
                  (if headersSent (final attempt) then []
                   else [Respond internal_server_error]) |}
  end.
Proof.
  unfold serve, post_mcp, the_log, the_error. cbn zeta.
  unfold mbind at 1, M_bind at 1. cbn [console_log emit completion final trace].
  unfold try_catch.
  destruct (post_mcp_try env req (fresh_response st))
    as [[[]|e] [tr n hs] evs]; cbn [completion final trace]; [reflexivity|].
  destruct hs; reflexivity.
Qed.

(** The REJECT branch on the requests it is meant for: no usable session id
    (none, or one that neither is registered nor names a member of
    [Object.prototype]) and, without an id, no initialize request. The reply
    is status 400 with the JSON-RPC error of code -32000, the message
    [Bad Request: No valid session ID provided] and a null id; no transport
    is touched and the registry stays as it was. *)
Theorem post_mcp_rejects (env : Env) (req : Request) (st : State) :
  (∀ sid, session_header req = Some sid → sid ≠ "" →
          transports st !! sid = None ∧ Object_prototype_has sid = false) →
  (truthy (session_header req) = false →
   isInitializeRequest (body req) = Normal false) →
  serve (post_mcp env req) st
  = {| completion := Normal ();
       final := {| transports := transports st; constructed := constructed st;
                   headersSent := true |};
       trace :=
         [the_log req;
          Respond {| status := 400; fields := [];
                     payload :=
                       Json (JObj {[ "jsonrpc" := JStr "2.0";
                                     "error" :=
                                       JObj {[ "code" := JNum (-32000)%float;
                                               "message" := JStr "Bad Request: No valid session ID provided" ]};
                                     "id" := JNull ]}) |}] |}.
Proof.
  intros Hsid Hinit. rewrite post_mcp_settles. cbn zeta.
  rewrite post_mcp_try_reject; [reflexivity| |done].
  destruct (truthy (session_header req)) eqn:Htr; [|reflexivity].
  apply truthy_true_inv in Htr as (sid & Hh & Hne).
  destruct (Hsid sid Hh Hne) as [Hnone Hnot]. rewrite Hh.
  unfold registry_get. cbn [property_key default from_option id].
  cbn [fresh_response transports]. by rewrite Hnone, Hnot.
Qed.

Lemma post_mcp_rejects_witness :
  trace (serve (post_mcp env_answers (request (Some sample_id) tools_list_call))
           no_sessions)
  = [the_log (request (Some sample_id) tools_list_call);
     Respond {| status := 400; fields := [];
                payload :=
                  Json (JObj {[ "jsonrpc" := JStr "2.0";
                                "error" :=
                                  JObj {[ "code" := JNum (-32000)%float;
                                          "message" := JStr "Bad Request: No valid session ID provided" ]};
                                "id" := JNull ]}) |}].
Proof.
  rewrite (post_mcp_rejects env_answers
             (request (Some sample_id) tools_list_call) no_sessions).
  - reflexivity.
  - intros sid [= <-] _. by split.
  - discriminate.
Defined.

(** C2 at a request the code mishandles: the session header names a member
    of [Object.prototype], the registry is empty and the body is no
    initialize request. The handler takes the inherited member for a stored
    transport, the call of [handleRequest] on it raises, and the reply is
    the 500 error of the [catch] block, not the 400 rejection. *)
Theorem builtin_name_as_session_id (env : Env) :
  let req := request (Some "constructor") tools_list_call in
  session_header req = Some "constructor"
  ∧ transports no_sessions !! "constructor" = None
  ∧ isInitializeRequest (body req) = Normal false
  ∧ trace (serve (post_mcp env req) no_sessions)
    = [the_log req; the_error TypeError; Respond internal_server_error].
Proof.
  cbn zeta. do 3 (split; [reflexivity|]).
  rewrite post_mcp_settles. cbn zeta. by rewrite post_mcp_try_reuse.
Qed.

(** C3, as the code has it. In the CREATE branch (no session header, an
    initialize body), once the constructor, [server.connect] and
    [handleRequest] have returned: if the transport exposes a non-empty
    session id (other than [__proto__]), the registry is the old one with
    that id bound to the new transport, so every other entry is as before,
    an id that was free adds exactly one entry, and an id that was in use
    has its entry replaced and adds none; if the transport exposes no id, the
    registry is as before and the transport is stored nowhere. *)
Theorem create_registers_transport (env : Env) (req : Request) (st : State) :
  truthy (session_header req) = false →
  isInitializeRequest (body req) = Normal true →
  construct_throws env = false →
  connect_rejects env = false →
  handle_rejects env = false →
  let r := serve (post_mcp env req) st in
  let transport := constructed st in
  transport_calls (trace r)
  = [Construct transport; Connect transport; HandleRequest transport (body req)]
  ∧ (∀ sid, sessionId_after env = Some sid → sid ≠ "" → sid ≠ "__proto__" →
       transports (final r) = <[sid := transport]> (transports st)
       ∧ transports (final r) !! sid = Some transport
       ∧ (∀ k, k ≠ sid → transports (final r) !! k = transports st !! k)
       ∧ (transports st !! sid = None →
          size (transports (final r)) = S (size (transports st)))
       ∧ (is_Some (transports st !! sid) →
          size (transports (final r)) = size (transports st)))
  ∧ (truthy (sessionId_after env) = false →
       transports (final r) = transports st
       ∧ (registry_wf st → ∀ k, transports (final r) !! k ≠ Some transport)).
Proof.
  intros Hh Hi Hc1 Hc2 Hr. cbn zeta. rewrite post_mcp_settles. cbn zeta.
  rewrite post_mcp_try_create by done. unfold create_session.
  destruct env as [c1 c2 hs hr sa].
  cbn [construct_throws connect_rejects handle_rejects sessionId_after] in *.
  subst c1 c2 hr. destruct st as [reg n sent]. split; [|split].
  - destruct (truthy sa), hs; reflexivity.
  - intros sid -> Hne Hnp. rewrite (truthy_Some _ Hne).
    cbn [property_key default from_option id].
    destruct hs; run; rewrite registry_put_insert by done.
    all: split; [reflexivity|]; split; [apply lookup_insert_eq|];
         split; [intros k Hk; by apply lookup_insert_ne|];
         split; [apply map_size_insert_None|];
         intros [t0 Ht0]; by apply map_size_insert_Some.
  - intros Htr. rewrite Htr. destruct hs; run.
    all: split; [reflexivity|]; intros Hwf k Hk; apply Hwf in Hk;
         cbn in Hk; lia.
Qed.

Lemma create_registers_transport_witness :
  transports (final (serve (post_mcp env_answers (request None initialize_call))
                       no_sessions)) !! sample_id = Some 0.
Proof.
  destruct (create_registers_transport env_answers
              (request None initialize_call) no_sessions
              eq_refl eq_refl eq_refl eq_refl eq_refl) as (_ & Hput & _).
  destruct (Hput sample_id eq_refl ltac:(discriminate) ltac:(discriminate))
    as (_ & Hstored & _).
  exact Hstored.
Defined.

(** C3, as the spec words it, fails when the id the new transport exposes
    is already a key of the registry: the request is in the CREATE branch and
    nothing fails, yet the registry has one entry before and one entry
    after; the entry of transport 0 under [sample_id] is replaced by
    transport 1, and no entry is added. *)
Lemma create_replaces_registered_id :
  let req := request None initialize_call in
  let r := serve (post_mcp env_answers req) one_session in
  truthy (session_header req) = false
  ∧ isInitializeRequest (body req) = Normal true
  ∧ completion r = Normal ()
  ∧ sessionId_after env_answers = Some sample_id
  ∧ transports one_session !! sample_id = Some 0
  ∧ size (transports one_session) = 1
  ∧ transports (final r) !! sample_id = Some 1
  ∧ size (transports (final r)) = 1.
Proof. by vm_compute. Qed.

(** C4. In the REUSE branch (a session header for which the registry holds a
    transport), the body goes to [handleRequest] of exactly that transport,
    which is the only call made on any transport; none is constructed and the
    registry is left as it was. *)
Theorem reuse_forwards_to_stored_transport (env : Env) (req : Request)
    (st : State) (sid : string) (t : Transport) :
  session_header req = Some sid →
  sid ≠ "" →
  transports st !! sid = Some t →
  let r := serve (post_mcp env req) st in
  transport_calls (trace r) = [HandleRequest t (body req)]
  ∧ transports (final r) = transports st
  ∧ constructed (final r) = constructed st.
Proof.
  intros Hh Hne Ht. cbn zeta. rewrite post_mcp_settles. cbn zeta.
  assert (Hslot : registry_get (transports (fresh_response st))
                    (property_key (session_header req)) = SlotTransport t).
  { rewrite Hh. unfold registry_get. cbn. by rewrite Ht. }
  rewrite post_mcp_try_reuse; rewrite Hslot; [|by rewrite Hh, truthy_Some].
  destruct st as [reg n sent]. destruct env as [c1 c2 [] [] sa]; by run.
Qed.

Lemma reuse_forwards_to_stored_transport_witness :
  transport_calls
    (trace (serve (post_mcp env_answers (request (Some sample_id) tools_list_call))
              one_session))
  = [HandleRequest 0 tools_list_call].
Proof.
  exact (proj1 (reuse_forwards_to_stored_transport env_answers
                  (request (Some sample_id) tools_list_call) one_session
                  sample_id 0 eq_refl ltac:(discriminate) eq_refl)).
Defined.

(** C3 and C4 in sequence: the session an initialize request creates is the
    one a later request with its id is forwarded to. *)
Example create_then_reuse :
  let created :=
    final (serve (post_mcp env_answers (request None initialize_call))
             no_sessions) in
  transports created !! sample_id = Some 0
  ∧ transport_calls
      (trace (serve (post_mcp env_answers
                       (request (Some sample_id) tools_list_call)) created))
    = [HandleRequest 0 tools_list_call].
Proof. by split. Qed.

(** The registry only ever holds constructed transports: the POST handler
    keeps [registry_wf], and a server that has just started satisfies it. *)
Lemma post_mcp_preserves_registry_wf (env : Env) (req : Request) (st : State) :
  registry_wf st → registry_wf (final (serve (post_mcp env req) st)).
Proof.
  intros Hwf. rewrite post_mcp_settles. cbn zeta.
  destruct (truthy (session_header req)
            && slot_truthy (registry_get (transports (fresh_response st))
                              (property_key (session_header req)))) eqn:Hreuse.
  - rewrite post_mcp_try_reuse by done. destruct st as [reg n sent].
    destruct (registry_get _ _); destruct env as [c1 c2 [] [] sa]; run;
      exact Hwf.
  - destruct (isInitializeRequest_decides (body req)) as (init & Hinit & _).
    destruct (truthy (session_header req)) eqn:Hh;
      [| destruct init].
    + rewrite post_mcp_try_reject by (rewrite Hh; done).
      destruct st as [reg n sent]. run. exact Hwf.
    + rewrite post_mcp_try_create by done. unfold create_session.
      destruct st as [reg n sent].
      assert (Hput : ∀ k, registry_wf
                {| transports := registry_put k n reg; constructed := S n;
                   headersSent := true |}).
      { intros k k' t. unfold registry_put. cbn.
        destruct (String.eqb k "__proto__").
        - intros Hk. apply Hwf in Hk. cbn in Hk. lia.
        - destruct (decide (k = k')) as [->|Hne].
          + rewrite lookup_insert_eq. intros [= <-]. lia.
          + rewrite lookup_insert_ne by done. intros Hk. apply Hwf in Hk.
            cbn in Hk. lia. }
      assert (Hold : ∀ sent', registry_wf
                {| transports := reg; constructed := S n;
                   headersSent := sent' |}).
      { intros sent' k t Hk. apply Hwf in Hk. cbn in *. lia. }
      destruct env as [[] [] [] [] sa]; cbn [sessionId_after];
        destruct (truthy sa); run; first [apply Hput | apply Hold].
    + rewrite post_mcp_try_reject by (rewrite Hh; done).
      destruct st as [reg n sent]. run. exact Hwf.
Qed.

Lemma no_sessions_wf : registry_wf no_sessions.
Proof. intros k t Hk. cbn in Hk. by rewrite lookup_empty in Hk. Qed.

(** ** Errors *)

(** Where an error of the [try] block comes from in the CREATE branch: the
    constructor, [server.connect] or [handleRequest]; the head of the response
    is out only if [handleRequest] was reached and sent it. *)
Lemma create_failure_reaches_catch (env : Env) (req : Request) (st : State) :
  truthy (session_header req) = false →
  isInitializeRequest (body req) = Normal true →
  construct_throws env || connect_rejects env || handle_rejects env = true →
  let attempt := post_mcp_try env req (fresh_response st) in
  completion attempt = Throw Failure
  ∧ headersSent (final attempt)
    = negb (construct_throws env) && negb (connect_rejects env)
      && handle_starts_response env
  ∧ transports (final attempt) = transports st.
Proof.
  intros Hh Hi Hfail. cbn zeta. rewrite post_mcp_try_create by done.
  destruct st as [reg n sent].
  destruct env as [[] [] [] [] sa]; try discriminate Hfail; by run.
Qed.

(** ... and in the REUSE branch: [handleRequest] of the stored transport. *)
Lemma reuse_failure_reaches_catch (env : Env) (req : Request) (st : State)
    (sid : string) (t : Transport) :
  session_header req = Some sid →
  sid ≠ "" →
  transports st !! sid = Some t →
  handle_rejects env = true →
  let attempt := post_mcp_try env req (fresh_response st) in
  completion attempt = Throw Failure
  ∧ headersSent (final attempt) = handle_starts_response env.
Proof.
  intros Hh Hne Ht Hfail. cbn zeta.
  assert (Hslot : registry_get (transports (fresh_response st))
                    (property_key (session_header req)) = SlotTransport t).
  { rewrite Hh. unfold registry_get. cbn. by rewrite Ht. }
  rewrite post_mcp_try_reuse; rewrite Hslot; [|by rewrite Hh, truthy_Some].
  destruct st as [reg n sent].
  destruct env as [c1 c2 [] [] sa]; try discriminate Hfail; by run.
Qed.

(** C6. The POST handler never completes with an error, whatever the code
    outside does. When its [try] block raises, the error is logged; if the
    head of the response is not out yet the reply is status 500 with the
    JSON-RPC error of code -32603, the message [Internal server error] and a
    null id, and if it is out nothing more is written. The errors of the
    constructor, of [server.connect] and of [handleRequest] all end this
    way, in the CREATE branch and in the REUSE branch, and leave the registry
    as it was. *)
Theorem post_mcp_contains_errors (env : Env) (req : Request) (st : State) :
  let attempt := post_mcp_try env req (fresh_response st) in
  let r := serve (post_mcp env req) st in
  let reply_500 :=
    Respond {| status := 500; fields := [];
               payload :=
                 Json (JObj {[ "jsonrpc" := JStr "2.0";
                               "error" :=
                                 JObj {[ "code" := JNum (-32603)%float;
                                         "message" := JStr "Internal server error" ]};
                               "id" := JNull ]}) |} in
  completion r = Normal ()
  ∧ (∀ err, completion attempt = Throw err →
       trace r = the_log req :: trace attempt ++ the_error err ::
                 (if headersSent (final attempt) then [] else [reply_500])
       ∧ transports (final r) = transports (final attempt))
  ∧ (creates req = true →
     construct_throws env || connect_rejects env || handle_rejects env = true →
       completion attempt = Throw Failure
       ∧ In (the_error Failure) (trace r)
       ∧ replies (trace r)
         = (if negb (construct_throws env) && negb (connect_rejects env)
               && handle_starts_response env
            then [] else [reply_500])
       ∧ transports (final r) = transports st)
  ∧ (∀ sid t, session_header req = Some sid → sid ≠ "" →
              transports st !! sid = Some t →
              handle_rejects env = true →
       completion attempt = Throw Failure
       ∧ trace r
         = the_log req :: HandleRequest t (body req) ::
           (if handle_starts_response env
            then [TransportWrites t; the_error Failure]
            else [the_error Failure; reply_500])
       ∧ transports (final r) = transports st).
Proof.
  cbn zeta. split; [|split; [|split]].
  - rewrite post_mcp_settles. cbn zeta.
    by destruct (completion (post_mcp_try env req (fresh_response st)))
      as [[]|e].
  - intros err Herr. rewrite post_mcp_settles. cbn zeta. rewrite Herr.
    by split.
  - intros Hcr Hfail. unfold creates in Hcr.
    apply andb_prop in Hcr as [Hh Hi]. apply negb_true_iff in Hh.
    destruct (isInitializeRequest (body req)) as [[]|] eqn:Hinit;
      try discriminate Hi.
    rewrite post_mcp_settles. cbn zeta. rewrite post_mcp_try_create by done.
    destruct st as [reg n sent].
    destruct env as [[] [] [] [] sa]; try discriminate Hfail; run;
      (split; [reflexivity|]); (split; [cbn; tauto|]); by split.
  - intros sid t Hh Hne Ht Hfail. rewrite post_mcp_settles. cbn zeta.
    assert (Hslot : registry_get (transports (fresh_response st))
                      (property_key (session_header req)) = SlotTransport t).
    { rewrite Hh. unfold registry_get. cbn. by rewrite Ht. }
    rewrite post_mcp_try_reuse; rewrite Hslot; [|by rewrite Hh, truthy_Some].
    destruct st as [reg n sent].
    destruct env as [c1 c2 [] [] sa]; try discriminate Hfail; by run.
Qed.

(** The two outcomes of C6 on a session in use: a failure before anything
    was sent is answered with status 500; a failure after the response has
    begun is only logged. *)
Example failure_before_and_after_the_head :
  let req := request (Some sample_id) tools_list_call in
  let fails_early :=
    {| construct_throws := false; connect_rejects := false;
       handle_starts_response := false; handle_rejects := true;
       sessionId_after := None |} in
  trace (serve (post_mcp fails_early req) one_session)
  = [the_log req; HandleRequest 0 tools_list_call; the_error Failure;
     Respond internal_server_error]
  ∧ trace (serve (post_mcp env_fails_late req) one_session)
    = [the_log req; HandleRequest 0 tools_list_call; TransportWrites 0;
       the_error Failure].
Proof. by split. Qed.

(** The reply of the [catch] block, field by field. *)
Example internal_server_error_fields :
  status internal_server_error = 500
  ∧ ∃ props err,
      payload internal_server_error = Json (JObj props)
      ∧ props !! "jsonrpc" = Some (JStr "2.0")
      ∧ props !! "id" = Some JNull
      ∧ props !! "error" = Some (JObj err)
      ∧ err !! "code" = Some (JNum (-32603)%float)
      ∧ err !! "message" = Some (JStr "Internal server error").
Proof. split; [reflexivity|]. by eexists _, _. Qed.

Example bad_request_fields :
  status bad_request = 400
  ∧ ∃ props err,
      payload bad_request = Json (JObj props)
      ∧ props !! "jsonrpc" = Some (JStr "2.0")
      ∧ props !! "id" = Some JNull
      ∧ props !! "error" = Some (JObj err)
      ∧ err !! "code" = Some (JNum (-32000)%float)
      ∧ err !! "message"
        = Some (JStr "Bad Request: No valid session ID provided").
Proof. split; [reflexivity|]. by eexists _, _. Qed.

(** ** Order of the calls *)

Lemma connected_before_sound (tr : list Event) :
  ∀ seen, connected_before seen tr = true →
  ∀ pre t b post, tr = pre ++ HandleRequest t b :: post →
  t ∈ seen ∨ Connected t ∈ pre.
Proof.
  induction tr as [|ev tr IH]; intros seen Hok pre t b post Heq.
  - by destruct pre.
  - destruct pre as [|ev' pre]; cbn in Heq; injection Heq as -> ->.
    + cbn in Hok. apply andb_prop in Hok as [Hin _].
      apply existsb_exists in Hin as (u & Hu & Heq).
      apply Nat.eqb_eq in Heq as ->. left. by apply list_elem_of_In.
    + destruct ev';
        try (destruct (IH seen Hok pre t b post eq_refl) as [?|?];
             [by left | right; by right]).
      * cbn in Hok.
        destruct (IH _ Hok pre t b post eq_refl) as [Hin|Hin].
        -- apply elem_of_cons in Hin as [->|Hin]; [right; left | by left].
        -- right. by right.
      * cbn in Hok. apply andb_prop in Hok as [_ Hok].
        destruct (IH seen Hok pre t b post eq_refl) as [?|?];
          [by left | right; by right].
Qed.

(** C7. In every run of the CREATE branch, a call of [handleRequest] on a
    transport comes after the point where [server.connect] for that transport
    has resolved: wherever such a call stands in the trace, the resolution
    stands before it. *)
Theorem connect_completes_before_handleRequest (env : Env) (req : Request)
    (st : State) :
  truthy (session_header req) = false →
  isInitializeRequest (body req) = Normal true →
  ∀ pre t b post,
    trace (serve (post_mcp env req) st) = pre ++ HandleRequest t b :: post →
    Connected t ∈ pre.
Proof.
  intros Hh Hi pre t b post Heq.
  assert (Hok : connected_before [] (trace (serve (post_mcp env req) st)) = true).
  { rewrite post_mcp_settles. cbn zeta. rewrite post_mcp_try_create by done.
    unfold create_session. destruct st as [reg n sent].
    destruct env as [[] [] [] [] sa]; cbn [sessionId_after];
      destruct (truthy sa); run; cbn; rewrite ?Nat.eqb_refl; reflexivity. }
  destruct (connected_before_sound _ [] Hok pre t b post Heq) as [Hin|Hin];
    [by apply not_elem_of_nil in Hin | done].
Qed.

Lemma connect_completes_before_handleRequest_witness :
  Connected 0 ∈ [the_log (request None initialize_call);
                 Construct 0; Connect 0; Connected 0].
Proof.
  exact (connect_completes_before_handleRequest env_answers
           (request None initialize_call) no_sessions eq_refl eq_refl
           [the_log (request None initialize_call);
            Construct 0; Connect 0; Connected 0]
           0 initialize_call [TransportWrites 0] eq_refl).
Defined.

(** ** The GET handler *)

(** C8. For every GET request on [/mcp], whatever its headers and whatever
    the registry holds, the reply has status 405 and the header
    [Allow: POST]; the registry is not touched. *)
Theorem get_mcp_method_not_allowed (req : Request) (st : State) :
  serve (get_mcp req) st
  = {| completion := Normal ();
       final := {| transports := transports st; constructed := constructed st;
                   headersSent := true |};
       trace := [Respond {| status := 405; fields := [("Allow", "POST")];
                            payload := Text "Method Not Allowed" |}] |}.
Proof. reflexivity. Qed.

(** ** The POST handler, all branches at once *)

(** Every request takes exactly one of the three branches. *)
Lemma post_mcp_branches (env : Env) (req : Request) (st : State) :
  (∃ slot, slot_truthy slot = true
           ∧ truthy (session_header req) = true
           ∧ registry_get (transports st) (property_key (session_header req))
             = slot
           ∧ creates req = false
           ∧ post_mcp_try env req (fresh_response st)
             = slot_handleRequest env slot (body req) (fresh_response st))
  ∨ (creates req = true
     ∧ truthy (session_header req) = false
     ∧ isInitializeRequest (body req) = Normal true
     ∧ post_mcp_try env req (fresh_response st)
       = create_session env req (fresh_response st))
  ∨ (creates req = false
     ∧ (truthy (session_header req) = true →
        registry_get (transports st) (property_key (session_header req))
        = SlotUndefined)
     ∧ post_mcp_try env req (fresh_response st)
       = res_reply bad_request (fresh_response st)).
Proof.
  unfold creates.
  destruct (isInitializeRequest_decides (body req)) as (init & Hinit & _).
  destruct (truthy (session_header req)) eqn:Hh.
  - destruct (registry_get (transports st)
                (property_key (session_header req))) as [t|k|] eqn:Hslot.
    + left. exists (SlotTransport t). repeat split.
      rewrite post_mcp_try_reuse; cbn [fresh_response transports];
        by rewrite ?Hslot, ?Hh.
    + left. exists (SlotBuiltin k). repeat split.
      rewrite post_mcp_try_reuse; cbn [fresh_response transports];
        by rewrite ?Hslot, ?Hh.
    + right. right. repeat split.
      apply post_mcp_try_reject; [|by rewrite Hh].
      cbn [fresh_response transports]. by rewrite Hh, Hslot.
  - rewrite Hinit. destruct init.
    + right. left. repeat split. by apply post_mcp_try_create.
    + right. right. repeat split; [discriminate|].
      apply post_mcp_try_reject; [by rewrite Hh | done].
Qed.

(** Splits a goal about [serve (post_mcp env req) st] into the runs of the
    three branches, with the environment and the state taken apart. *)
Ltac post_branches env req st :=
  rewrite ?post_mcp_settles; cbn zeta;
  let slot := fresh "slot" in
  let Hh := fresh "Hh" in
  let Hslot := fresh "Hslot" in
  let Hcr := fresh "Hcr" in
  let Hinit := fresh "Hinit" in
  destruct (post_mcp_branches env req st)
    as [(slot & _ & Hh & Hslot & Hcr & ->)
       |[(Hcr & Hh & Hinit & ->)|(Hcr & Hslot & ->)]];
  rewrite ?Hcr;
  [ destruct slot, st, env as [? ? [] [] ?]
  | unfold create_session; destruct st, env as [[] [] [] [] sa];
    cbn [sessionId_after creation_succeeds construct_throws connect_rejects
         handle_rejects andb negb];
    destruct (truthy sa) eqn:?
  | destruct st ];
  run.

(** What a POST request does to the registry: only a CREATE run in which
    the constructor, [server.connect] and [handleRequest] all return and the
    transport exposes a session id writes to it, and it writes that one
    entry; every other run (REUSE, REJECT, any failure) leaves the registry
    as it was. A transport is counted as constructed exactly in the CREATE
    branch. *)
Theorem post_mcp_registry_effect (env : Env) (req : Request) (st : State) :
  let r := serve (post_mcp env req) st in
  transports (final r)
  = (if creates req && creation_succeeds env
     then registry_put (property_key (sessionId_after env)) (constructed st)
            (transports st)
     else transports st)
  ∧ constructed (final r)
    = (if creates req then S (constructed st) else constructed st).
Proof. post_branches env req st; by split. Qed.

(** The handler itself replies at most once per request, and not at all
    once the transport has started the response; [handleRequest] is called
    at most once per request. *)
Theorem post_mcp_replies_at_most_once (env : Env) (req : Request) (st : State) :
  let tr := trace (serve (post_mcp env req) st) in
  length (replies tr) ≤ 1
  ∧ (existsb is_transport_write tr = true → replies tr = [])
  ∧ length (List.filter is_handleRequest tr) ≤ 1.
Proof.
  post_branches env req st; cbn;
    (split; [lia|]); (split; [|lia]); first [discriminate | reflexivity].
Qed.

(** Every reply the POST handler sends itself is status 400 with the
    JSON-RPC error of code -32000 or status 500 with the JSON-RPC error of
    code -32603, each with its message and a null id, and a request that is
    never forwarded to a transport gets exactly one such reply. *)
Theorem post_mcp_answers_unforwarded (env : Env) (req : Request) (st : State) :
  let tr := trace (serve (post_mcp env req) st) in
  Forall (λ ev,
            ev = Respond {| status := 400; fields := [];
                            payload :=
                              Json (JObj {[ "jsonrpc" := JStr "2.0";
                                            "error" :=
                                              JObj {[ "code" := JNum (-32000)%float;
                                                      "message" := JStr "Bad Request: No valid session ID provided" ]};
                                            "id" := JNull ]}) |}
            ∨ ev = Respond {| status := 500; fields := [];
                              payload :=
                                Json (JObj {[ "jsonrpc" := JStr "2.0";
                                              "error" :=
                                                JObj {[ "code" := JNum (-32603)%float;
                                                        "message" := JStr "Internal server error" ]};
                                              "id" := JNull ]}) |})
         (replies tr)
  ∧ (List.filter is_handleRequest tr = [] → length (replies tr) = 1).
Proof.
  post_branches env req st; cbn;
    (split; [repeat constructor; by (left + right)
            | first [discriminate | reflexivity]]).
Qed.

(** A transport is constructed exactly for a request that takes the CREATE
    branch (no usable session header and an initialize body), and then
    exactly one. *)
Theorem post_mcp_constructs_iff_creates (env : Env) (req : Request) (st : State) :
  List.filter is_construct (trace (serve (post_mcp env req) st))
  = if creates req then [Construct (constructed st)] else [].
Proof. post_branches env req st; reflexivity. Qed.

(** A session header that is falsy (absent, or present with an empty value)
    is no session header: two such requests with the same body are served
    in the same way. *)
Theorem falsy_session_header_is_none (env : Env) (req req' : Request)
    (st : State) :
  truthy (session_header req) = false →
  truthy (session_header req') = false →
  body req = body req' →
  serve (post_mcp env req) st = serve (post_mcp env req') st.
Proof.
  intros Hh Hh' Hb. rewrite !post_mcp_settles. cbn zeta. unfold the_log.
  destruct (isInitializeRequest_decides (body req)) as ([] & Hinit & _).
  - rewrite !post_mcp_try_create by (done || by rewrite <- Hb).
    unfold create_session. by rewrite Hb.
  - rewrite !post_mcp_try_reject;
      try (by rewrite ?Hh, ?Hh'); try (by rewrite <- ?Hb); by rewrite Hb.
Qed.

Lemma falsy_session_header_is_none_witness :
  serve (post_mcp env_answers (request (Some "") initialize_call)) no_sessions
  = serve (post_mcp env_answers (request None initialize_call)) no_sessions.
Proof.
  exact (falsy_session_header_is_none env_answers
           (request (Some "") initialize_call) (request None initialize_call)
           no_sessions eq_refl eq_refl eq_refl).
Defined.

(** A session header that names a member of [Object.prototype] under which
    nothing is stored is answered with status 500 and the JSON-RPC error of
    code -32603 (message [Internal server error], null id), whatever the
    body (an initialize request too) and whatever the registry holds
    otherwise; no transport is called and the registry is left as it was. *)
Theorem inherited_name_is_answered_500 (env : Env) (req : Request)
    (st : State) (sid : string) :
  session_header req = Some sid →
  Object_prototype_has sid = true →
  transports st !! sid = None →
  serve (post_mcp env req) st
  = {| completion := Normal ();
       final := {| transports := transports st; constructed := constructed st;
                   headersSent := true |};
       trace :=
         [the_log req; the_error TypeError;
          Respond {| status := 500; fields := [];
                     payload :=
                       Json (JObj {[ "jsonrpc" := JStr "2.0";
                                     "error" :=
                                       JObj {[ "code" := JNum (-32603)%float;
                                               "message" := JStr "Internal server error" ]};
                                     "id" := JNull ]}) |}] |}.
Proof.
  intros Hh Hb Hnone. rewrite post_mcp_settles. cbn zeta.
  assert (Hne : sid ≠ "") by (intros ->; discriminate Hb).
  assert (Hslot : registry_get (transports (fresh_response st))
                    (property_key (session_header req)) = SlotBuiltin sid).
  { rewrite Hh. unfold registry_get.
    cbn [property_key default from_option id fresh_response transports].
    by rewrite Hnone, Hb. }
  rewrite post_mcp_try_reuse; rewrite Hslot; [|by rewrite Hh, truthy_Some].
  reflexivity.
Qed.

Lemma inherited_name_is_answered_500_witness :
  trace (serve (post_mcp env_answers (request (Some "toString") initialize_call))
           one_session)
  = [the_log (request (Some "toString") initialize_call);
     the_error TypeError;
     Respond {| status := 500; fields := [];
                payload :=
                  Json (JObj {[ "jsonrpc" := JStr "2.0";
                                "error" :=
                                  JObj {[ "code" := JNum (-32603)%float;
                                          "message" := JStr "Internal server error" ]};
                                "id" := JNull ]}) |}].
Proof.
  rewrite (inherited_name_is_answered_500 env_answers
             (request (Some "toString") initialize_call) one_session
             "toString" eq_refl eq_refl eq_refl).
  reflexivity.
Defined.

Lemma post_mcp_reuse_run (env : Env) (req : Request) (st : State)
    (sid : string) (t : Transport) :
  session_header req = Some sid →
  sid ≠ "" →
  transports st !! sid = Some t →
  transport_calls (trace (serve (post_mcp env req) st))
  = [HandleRequest t (body req)]
  ∧ transports (final (serve (post_mcp env req) st)) = transports st.
Proof.
  intros Hh Hne Ht. rewrite post_mcp_settles. cbn zeta.
  assert (Hslot : registry_get (transports (fresh_response st))
                    (property_key (session_header req)) = SlotTransport t).
  { rewrite Hh. unfold registry_get. cbn. by rewrite Ht. }
  rewrite post_mcp_try_reuse; rewrite Hslot; [|by rewrite Hh, truthy_Some].
  destruct st as [reg n sent]. destruct env as [c1 c2 [] [] sa]; by run.
Qed.

(** Creation and reuse compose: after a CREATE run that succeeds and
    exposes the session id [sid], a request carrying [sid] in its session
    header is forwarded to the very transport that run constructed, and to
    nothing else, whatever its body and whatever the transport then does. *)
Theorem created_session_is_reused (env1 env2 : Env) (req1 req2 : Request)
    (st : State) (sid : string) :
  creates req1 = true →
  creation_succeeds env1 = true →
  sessionId_after env1 = Some sid →
  sid ≠ "__proto__" →
  session_header req2 = Some sid →
  let st1 := final (serve (post_mcp env1 req1) st) in
  transport_calls (trace (serve (post_mcp env2 req2) st1))
  = [HandleRequest (constructed st) (body req2)]
  ∧ transports (final (serve (post_mcp env2 req2) st1)) = transports st1.
Proof.
  intros Hcr Hok Hsid Hnp Hh2 st1.
  assert (Hne : sid ≠ "").
  { intros ->. unfold creation_succeeds in Hok. rewrite Hsid in Hok.
    cbn in Hok. by rewrite andb_false_r in Hok. }
  apply (post_mcp_reuse_run env2 req2 st1 sid); [done..|].
  subst st1. destruct (post_mcp_registry_effect env1 req1 st) as [-> _].
  rewrite Hcr, Hok, Hsid. cbn. rewrite registry_put_insert by done.
  apply lookup_insert_eq.
Qed.

Lemma created_session_is_reused_witness :
  transport_calls
    (trace (serve (post_mcp env_fails_late
                     (request (Some sample_id) tools_list_call))
              (final (serve (post_mcp env_answers (request None initialize_call))
                        no_sessions))))
  = [HandleRequest 0 tools_list_call].
Proof.
  exact (proj1 (created_session_is_reused env_answers env_fails_late
                  (request None initialize_call)
                  (request (Some sample_id) tools_list_call)
                  no_sessions sample_id eq_refl eq_refl eq_refl
                  ltac:(discriminate) eq_refl)).
Defined.

(** ** Requests in sequence *)

(** What one request does to the registry and to the count of transports:
    nothing, or one more transport constructed and possibly stored under a
    non-empty id. *)
Lemma step_effect (st : State) (c : Call) :
  (transports (step st c) = transports st
   ∧ constructed st ≤ constructed (step st c))
  ∨ (∃ k, k ≠ ""
          ∧ transports (step st c)
            = registry_put k (constructed st) (transports st)
          ∧ constructed (step st c) = S (constructed st)).
Proof.
  destruct c as [env req|req]; cbn [step]; [|left; by split].
  destruct (post_mcp_registry_effect env req st) as [-> ->].
  destruct (creates req); [|left; by split].
  destruct (creation_succeeds env) eqn:Hok; cbn [andb]; [|left; split; [done|lia]].
  right. exists (property_key (sessionId_after env)). repeat split.
  unfold creation_succeeds in Hok. apply andb_prop in Hok as [_ Hid].
  apply truthy_true_inv in Hid as (sid & -> & Hne). exact Hne.
Qed.

Lemma step_preserves_invariant (st : State) (c : Call) :
  registry_wf st ∧ registry_injective st ∧ transports st !! "" = None →
  registry_wf (step st c) ∧ registry_injective (step st c)
  ∧ transports (step st c) !! "" = None.
Proof.
  intros (Hwf & Hinj & Hempty).
  unfold registry_wf, registry_injective in *.
  destruct (step_effect st c) as [[-> Hle]|(k & Hk & -> & ->)].
  - repeat split; [|done..]. intros k t Hkt. apply Hwf in Hkt. lia.
  - unfold registry_put. destruct (String.eqb k "__proto__").
    { repeat split; [|done..]. intros k' t Hkt. apply Hwf in Hkt. lia. }
    repeat split.
    + intros k' t. destruct (decide (k = k')) as [<-|Hne].
      * rewrite lookup_insert_eq. intros [= <-]. lia.
      * rewrite lookup_insert_ne by done. intros Hkt. apply Hwf in Hkt. lia.
    + intros k1 k2 t.
      destruct (decide (k = k1)) as [<-|Hne1], (decide (k = k2)) as [<-|Hne2];
        rewrite ?lookup_insert_eq, ?lookup_insert_ne by done; try done.
      * intros [= <-] Hold. apply Hwf in Hold. lia.
      * intros Hold [= <-]. apply Hwf in Hold. lia.
      * apply Hinj.
    + by rewrite lookup_insert_ne.
Qed.

(** Starting with an empty registry and serving any requests one after
    another, whatever the transports do: every stored transport has been
    constructed, no transport is stored under two session ids, and the empty
    string is never a key. *)
Theorem served_registry_invariant (calls : list Call) :
  let st := run_calls calls no_sessions in
  registry_wf st ∧ registry_injective st ∧ transports st !! "" = None.
Proof.
  cbn zeta. unfold run_calls.
  assert (H0 : registry_wf no_sessions ∧ registry_injective no_sessions
               ∧ transports no_sessions !! "" = None).
  { repeat split; [apply no_sessions_wf|]. intros k1 k2 t Hk.
    cbn in Hk. by rewrite lookup_empty in Hk. }
  revert H0. generalize no_sessions. induction calls as [|c calls IH]; intros st Hst.
  - exact Hst.
  - cbn [fold_left]. apply IH. by apply step_preserves_invariant.
Qed.

Lemma step_keeps_entries (st : State) (c : Call) (k : string) :
  is_Some (transports st !! k) → is_Some (transports (step st c) !! k).
Proof.
  intros Hk. destruct (step_effect st c) as [[-> _]|(k' & _ & -> & _)]; [done|].
  unfold registry_put. destruct (String.eqb k' "__proto__"); [done|].
  destruct (decide (k' = k)) as [->|Hne].
  - rewrite lookup_insert_eq. by eexists.
  - by rewrite lookup_insert_ne.
Qed.

(** No request ever removes a session: a session id that is a key of the
    registry stays one through any requests served afterwards. *)
Theorem sessions_are_never_evicted (calls : list Call) (st : State)
    (k : string) :
  is_Some (transports st !! k) →
  is_Some (transports (run_calls calls st) !! k).
Proof.
  unfold run_calls. revert st.
  induction calls as [|c calls IH]; intros st Hk; [exact Hk|].
  cbn [fold_left]. apply IH. by apply step_keeps_entries.
Qed.

Lemma sessions_are_never_evicted_witness :
  is_Some (transports
             (run_calls [GetCall (request None JNull);
                         PostCall env_fails_late
                           (request (Some sample_id) tools_list_call);
                         PostCall env_answers (request None tools_list_call)]
                one_session) !! sample_id).
Proof.
  apply (sessions_are_never_evicted _ one_session sample_id). by eexists.
Defined.

(** ** More on the classifier *)

(** The order of the messages in a batch does not matter. *)
Theorem isInitializeRequest_permutation (batch batch' : list JsValue) :
  batch ≡ₚ batch' →
  isInitializeRequest (JArr batch) = isInitializeRequest (JArr batch').
Proof.
  intros Hperm.
  destruct (isInitializeRequest_decides (JArr batch)) as (b & -> & Hb).
  destruct (isInitializeRequest_decides (JArr batch')) as (b' & -> & Hb').
  f_equal. apply eq_true_iff_eq. rewrite Hb, Hb'. unfold initialize_shape.
  split; (intros [(? & ? & ?)|(l & [= <-] & msg & Hin & Hmsg)]; [discriminate|]);
    right; eexists; (split; [reflexivity|]); exists msg; (split; [|done]).
  - by rewrite <- Hperm.
  - by rewrite Hperm.
Qed.

Lemma isInitializeRequest_permutation_witness :
  isInitializeRequest (JArr [tools_list_call; initialize_call])
  = isInitializeRequest (JArr [initialize_call; tools_list_call]).
Proof.
  apply isInitializeRequest_permutation. apply perm_swap.
Defined.

(** Two batches put together hold an initialize request exactly when one of
    them does. *)
Theorem isInitializeRequest_app (batch1 batch2 : list JsValue) :
  ∃ b1 b2 : bool,
    isInitializeRequest (JArr batch1) = Normal b1
    ∧ isInitializeRequest (JArr batch2) = Normal b2
    ∧ isInitializeRequest (JArr (batch1 ++ batch2)) = Normal (b1 || b2).
Proof.
  destruct (isInitializeRequest_decides (JArr batch1)) as (b1 & H1 & _).
  destruct (isInitializeRequest_decides (JArr batch2)) as (b2 & H2 & _).
  exists b1, b2. split; [done|]. split; [done|].
  unfold isInitializeRequest in *. cbn [Array_isArray elements] in *.
  induction batch1 as [|msg rest IH] in b1, H1 |- *.
  - injection H1 as <-. exact H2.
  - cbn [app Array_some] in *.
    destruct (is_initialize_message_decides msg) as ([] & Hmsg & _);
      rewrite Hmsg in *; cbn in *.
    + by injection H1 as <-.
    + by apply IH.
Qed.

(** A batch of one message is classified as the message itself, unless the
    message is itself an array: the elements of an inner array are not
    looked at. *)
Theorem isInitializeRequest_singleton (msg : JsValue) :
  isInitializeRequest (JArr [msg])
  = if Array_isArray msg then Normal false else isInitializeRequest msg.
Proof.
  unfold isInitializeRequest. cbn [Array_isArray elements Array_some].
  destruct (is_initialize_message_decides msg) as (b & Hmsg & _).
  destruct msg; cbn [Array_isArray]; rewrite ?Hmsg; by destruct b.
Qed.

(** Only the key [method] of a message counts: setting or removing any other
    key does not change how the message is classified. *)
Theorem isInitializeRequest_other_keys (props : gmap string JsValue)
    (k : string) (v : JsValue) :
  k ≠ "method" →
  isInitializeRequest (JObj (<[k := v]> props)) = isInitializeRequest (JObj props)
  ∧ isInitializeRequest (JObj (delete k props)) = isInitializeRequest (JObj props).
Proof.
  intros Hk. unfold isInitializeRequest, is_initialize_message.
  cbn [Array_isArray typeof not_null method_in method_of].
  by rewrite lookup_insert_ne, lookup_delete_ne.
Qed.

Lemma isInitializeRequest_other_keys_witness :
  isInitializeRequest (JObj (<[ "id" := JNull ]> ∅)) = isInitializeRequest (JObj ∅)
  ∧ isInitializeRequest (JObj (delete "id" ∅)) = isInitializeRequest (JObj ∅).
Proof.
  exact (isInitializeRequest_other_keys ∅ "id" JNull ltac:(discriminate)).
Defined.

(** ** The tools *)

Lemma append_cons (c : Ascii.ascii) (s t : string) :
  String c s +:+ t = String c (s +:+ t).
Proof. reflexivity. Qed.

Lemma append_empty (t : string) : "" +:+ t = t.
Proof. reflexivity. Qed.

Lemma substring_append_left (s t : string) :
  String.substring 0 (String.length s) (s +:+ t) = s.
Proof.
  induction s as [|c s IH]; rewrite ?append_cons, ?append_empty;
    cbn [String.length String.substring]; [by destruct t | by rewrite IH].
Qed.

Lemma length_append_char (s t : string) :
  String.length (s +:+ t) = String.length s + String.length t.
Proof.
  induction s as [|c s IH]; rewrite ?append_cons, ?append_empty;
    cbn [String.length]; [done | by rewrite IH].
Qed.

Lemma prefix_append (s t : string) : String.prefix s (s +:+ t) = true.
Proof.
  induction s as [|c s IH]; rewrite ?append_cons, ?append_empty;
    cbn [String.prefix]; [by destruct t|].
  by destruct (Ascii.ascii_dec c c).
Qed.

(** The greeting of [greet] gives the name back: for every name, the empty
    one too, the result is a single text item whose text is the name
    between ["Hello, "] and ["!"]; so different names get different
    greetings. *)
Theorem greet_gives_name_back (name : string) :
  result_text (greet name) = Some ("Hello, " +:+ name +:+ "!")
  ∧ greeted_name (greet name) = Some name.
Proof.
  assert (Htext : result_text (greet name) = Some ("Hello, " +:+ name +:+ "!"))
    by reflexivity.
  split; [exact Htext|]. unfold greeted_name. rewrite Htext, prefix_append.
  replace (String.length ("Hello, " +:+ name +:+ "!") - 8)
    with (String.length name)
    by (rewrite !length_append_char; cbn [String.length]; lia).
  rewrite !append_cons, append_empty. cbn [String.substring].
  by rewrite substring_append_left.
Qed.

(** [multi-greet] stops at the first notification that fails: the
    notifications up to and including that one are sent, none after it, the
    callback sleeps one second after each notification that went through
    except the last, and it returns its greeting only if all three went
    through; otherwise it fails with the error of the notification. *)
Theorem multi_greet_stops_at_first_rejection (rejects : nat → bool)
    (name : string) :
  let run := multi_greet rejects name 0 in
  let all :=
    [message_notification "debug" ("Starting multi-greet for " +:+ name);
     message_notification "info" ("Sending first greeting to " +:+ name);
     message_notification "info" ("Sending second greeting to " +:+ name)] in
  match first_rejection rejects with
  | None =>
      run.1.1 = Normal (text_result ("Good morning, " +:+ name +:+ "!"))
      ∧ notifications run.2 = all
      ∧ time_slept run.2 = 2000
  | Some i =>
      run.1.1 = Throw Failure
      ∧ notifications run.2 = take (S i) all
      ∧ time_slept run.2 = 1000 * i
  end.
Proof.
  cbn zeta. unfold first_rejection.
  cbv [multi_greet sendNotification sleep mbind Act_bind mret Act_ret].
  destruct (rejects 0); [by repeat split|].
  destruct (rejects 1); [by repeat split|].
  destruct (rejects 2); by repeat split.
Qed.

(** ** Shutdown *)

(** On SIGINT the process exits, with code 0, only once [server.close()] has
    resolved; when that promise rejects, [process.exit] is never called and
    the handler ends with the error. *)
Theorem on_SIGINT_exits_after_close (close_rejects : bool) :
  let run := on_SIGINT close_rejects () in
  run.2 = [Printed "Shutting down server..."; CloseServer]
          ++ (if close_rejects then [] else [ServerClosed; Exit 0])
  ∧ run.1.1 = (if close_rejects then Throw Failure else Normal ()).
Proof. by destruct close_rejects. Qed.
